(** * dstl-onboarding-chat: the HTTP handlers of backend/main.py

    A shallow embedding of the conversation and message endpoints and of
    the LLM-reply endpoint.  Tables are finite maps keyed by primary key,
    the request-scoped SQLModel session is a state record with a committed
    and a pending view, and every handler is a computation in a small
    state-and-exception monad over that record. *)

From stdpp Require Import base gmap list strings sorting pretty.

Local Open Scope Z_scope.
Local Open Scope string_scope.

(** ** Data model *)

(** Modelled from the spec: models.py is absent.  The spec gives a Message
    an auto-assigned integer id, the id of its owning conversation, a
    free-form role, a text content and a creation timestamp used for
    ordering.  The id is the key of the table, the other columns are here. *)
Record MessageColumns := {
  message_conversation_id : Z;
  message_role : string;
  message_content : string;
  message_created_at : Z
}.

(** A loaded ORM instance: primary key and columns. *)
Record Message := { message_id : Z; message_columns : MessageColumns }.

(** Modelled from the spec: models.py is absent.  A Conversation has an
    auto-assigned integer id and an optional title. *)
Record Conversation := { id : Z; title : option string }.

(** The two tables of the relational store, keyed by primary key. *)
Record Database := {
  conversation_table : gmap Z (option string);
  message_table : gmap Z MessageColumns
}.

(** Request and response schemas (lines 31-52). *)
Record ConversationCreate := { create_title : option string }.

Record ConversationRead := { conversation_read_id : Z; conversation_read_title : option string }.

Record MessageCreate := { create_role : string; create_content : string }.

Record MessageRead := {
  read_id : Z;
  read_conversation_id : Z;
  read_role : string;
  read_content : string
}.

Record ConversationReadWithMessages := {
  with_messages_id : Z;
  with_messages_title : option string;
  messages : list MessageRead
}.

Definition ConversationRead_from_orm (c : Conversation) : ConversationRead :=
  {| conversation_read_id := id c; conversation_read_title := title c |}.

Definition MessageRead_from_orm (m : Message) : MessageRead :=
  {| read_id := message_id m;
     read_conversation_id := message_conversation_id (message_columns m);
     read_role := message_role (message_columns m);
     read_content := message_content (message_columns m) |}.

(** ** Exceptions *)

Inductive PyException := Exception (message : string).

(** What a handler can raise: an HTTPException with its status, detail and
    chained cause ([raise ... from e]), or any other exception, which the
    framework turns into a generic server error. *)
Inductive Raised :=
  | HTTPException (status_code : Z) (detail : string) (cause : option PyException)
  | Unhandled (e : PyException).

Inductive Outcome (A : Type) :=
  | Return (a : A)
  | Raise (e : Raised).
Arguments Return {A} a.
Arguments Raise {A} e.

Definition status {A} (o : Outcome A) : Z :=
  match o with
  | Return _ => 200
  | Raise (HTTPException s _ _) => s
  | Raise (Unhandled _) => 500
  end.

(** ** The session and the LLM client *)

(** The state a request runs in.  [committed] is what the engine holds,
    [pending] is the session's view (committed rows plus the changes not yet
    committed), [journal] lists the database after each commit the handler
    issued, oldest first, and [prompts] lists the message lists handed to the
    LLM client, oldest first. *)
Record World := {
  committed : Database;
  pending : Database;
  journal : list Database;
  prompts : list (list (gmap string string))
}.

Definition Handler (A : Type) : Type := World → Outcome A * World.

Global Instance Handler_ret : MRet Handler := λ A a w, (Return a, w).

Definition raise {A} (e : Raised) : Handler A := λ w, (Raise e, w).

Global Instance Handler_bind : MBind Handler := λ A B k h w,
  match h w with
  | (Return a, w') => k a w'
  | (Raise e, w') => (Raise e, w')
  end.

Definition gets {A} (f : World → A) : Handler A := λ w, (Return (f w), w).

Definition with_pending (f : Database → Database) : Handler unit :=
  λ w, (Return (),
        {| committed := committed w; pending := f (pending w);
           journal := journal w; prompts := prompts w |}).

(** Modelled from the spec: the engine's rule for an auto-assigned integer
    id is absent (database.py, models.py).  The first row of a table gets 1
    and a later one the successor of the largest key present. *)
Definition next_id {A} (t : gmap Z A) : Z :=
  1 + map_fold (λ k _ acc, Z.max k acc) 0 t.

(** [session.get(Conversation, conversation_id)] for an id the engine can
    hold: the row under that key of the session's view, if any.  What the
    driver does with an id it cannot bind is [session_get_bound] below. *)
Definition session_get (conversation_id : Z) : Handler (option Conversation) :=
  gets (λ w, (λ t, {| id := conversation_id; title := t |})
               <$> conversation_table (pending w) !! conversation_id).

(** [session.add] of a new Conversation: the row gets its key. *)
Definition session_add_conversation (t : option string) : Handler Z :=
  k ← gets (λ w, next_id (conversation_table (pending w)));
  with_pending (λ db, {| conversation_table := <[k := t]> (conversation_table db);
                         message_table := message_table db |});;
  mret k.

(** Assignment to [title] of a persistent Conversation, then [session.add]. *)
Definition session_set_title (k : Z) (t : option string) : Handler unit :=
  with_pending (λ db, {| conversation_table := alter (λ _, t) k (conversation_table db);
                         message_table := message_table db |}).

(** [session.add] of a new Message. *)
Definition session_add_message (c : MessageColumns) : Handler Z :=
  k ← gets (λ w, next_id (message_table (pending w)));
  with_pending (λ db, {| conversation_table := conversation_table db;
                         message_table := <[k := c]> (message_table db) |});;
  mret k.

Definition session_delete_message (m : Message) : Handler unit :=
  with_pending (λ db, {| conversation_table := conversation_table db;
                         message_table := delete (message_id m) (message_table db) |}).

Definition session_delete_conversation (c : Conversation) : Handler unit :=
  with_pending (λ db, {| conversation_table := delete (id c) (conversation_table db);
                         message_table := message_table db |}).

Definition session_commit : Handler unit :=
  λ w, (Return (),
        {| committed := pending w; pending := pending w;
           journal := (journal w ++ [pending w])%list; prompts := prompts w |}).

(** [session.refresh]: reload the row; a row that is gone raises. *)
Definition session_refresh_conversation (k : Z) : Handler Conversation :=
  r ← gets (λ w, conversation_table (pending w) !! k);
  match r with
  | Some t => mret {| id := k; title := t |}
  | None => raise (Unhandled (Exception "InvalidRequestError"))
  end.

Definition session_refresh_message (k : Z) : Handler Message :=
  r ← gets (λ w, message_table (pending w) !! k);
  match r with
  | Some c => mret {| message_id := k; message_columns := c |}
  | None => raise (Unhandled (Exception "InvalidRequestError"))
  end.

Fixpoint for_each {A} (l : list A) (body : A → Handler unit) : Handler unit :=
  match l with
  | [] => mret ()
  | x :: l' => body x;; for_each l' body
  end.

(** Modelled from the spec: llm.py is absent.  The LLM client takes the
    message list and returns the assistant text or raises.  The client is
    the function [client]; each call is recorded in [prompts]. *)
Definition generate_llm_response
    (client : list (gmap string string) → PyException + string)
    (llm_messages : list (gmap string string)) : Handler (PyException + string) :=
  λ w, (Return (client llm_messages),
        {| committed := committed w; pending := pending w;
           journal := journal w; prompts := (prompts w ++ [llm_messages])%list |}).

(** ** Handlers *)

Definition created_le (m1 m2 : Message) : Prop :=
  (message_created_at (message_columns m1) ≤ message_created_at (message_columns m2))%Z.

Global Instance created_le_dec m1 m2 : Decision (created_le m1 m2).
Proof. unfold created_le. apply _. Defined.

(** The rows of the message table as ORM instances. *)
Definition message_rows (db : Database) : list Message :=
  (λ kc, {| message_id := kc.1; message_columns := kc.2 |}) <$> map_to_list (message_table db).

(** Lines 21-29: select the messages of a conversation, ordered by
    [created_at].  SQL leaves the order of rows with equal timestamps to the
    engine; here it is the one the merge of the key-ordered rows gives. *)
Definition get_conversation_messages (session : World) (conversation_id : Z) : list Message :=
  merge_sort created_le
    (filter (λ m, message_conversation_id (message_columns m) = conversation_id)
            (message_rows (pending session))).

(** The rows of the message table that belong to a conversation. *)
Definition owned_messages (db : Database) (conversation_id : Z) : gmap Z MessageColumns :=
  filter (λ kc, message_conversation_id kc.2 = conversation_id) (message_table db).

Definition conversation_not_found : Raised :=
  HTTPException 404 "Conversation not found" None.

Definition not_found {A} : Handler A := raise conversation_not_found.

(** Lines 82-99. *)
Definition create_conversation (conversation : ConversationCreate) : Handler ConversationRead :=
  k ← session_add_conversation (create_title conversation);
  session_commit;;
  db_conversation ← session_refresh_conversation k;
  match title db_conversation with
  | None =>
      session_set_title k (Some ("Conversation " +:+ pretty (id db_conversation)));;
      session_commit;;
      db_conversation ← session_refresh_conversation k;
      mret (ConversationRead_from_orm db_conversation)
  | Some _ => mret (ConversationRead_from_orm db_conversation)
  end.

(** Lines 112-126. *)
Definition read_conversation (conversation_id : Z) : Handler ConversationReadWithMessages :=
  conversation ← session_get conversation_id;
  match conversation with
  | None => not_found
  | Some conversation =>
      messages ← gets (λ session, get_conversation_messages session conversation_id);
      mret {| with_messages_id := id conversation;
              with_messages_title := title conversation;
              messages := MessageRead_from_orm <$> messages |}
  end.

(** Lines 129-144. *)
Definition delete_conversation (conversation_id : Z) : Handler (gmap string bool) :=
  conversation ← session_get conversation_id;
  match conversation with
  | None => not_found
  | Some conversation =>
      messages ← gets (λ session, get_conversation_messages session conversation_id);
      for_each messages session_delete_message;;
      session_delete_conversation conversation;;
      session_commit;;
      mret {[ "ok" := true ]}
  end.

(** Lines 146-159. *)
Definition read_messages_for_conversation (conversation_id : Z) : Handler (list MessageRead) :=
  conversation ← session_get conversation_id;
  match conversation with
  | None => not_found
  | Some _ =>
      messages ← gets (λ session, get_conversation_messages session conversation_id);
      mret (MessageRead_from_orm <$> messages)
  end.

(** Lines 161-182.  [now] is the clock reading the new row is stamped with. *)
Definition create_message_for_conversation
    (now : Z) (conversation_id : Z) (message_in : MessageCreate) : Handler MessageRead :=
  conversation ← session_get conversation_id;
  match conversation with
  | None => not_found
  | Some _ =>
      k ← session_add_message {| message_conversation_id := conversation_id;
                                 message_role := create_role message_in;
                                 message_content := create_content message_in;
                                 message_created_at := now |};
      session_commit;;
      message ← session_refresh_message k;
      mret (MessageRead_from_orm message)
  end.

Definition chat_message (r c : string) : gmap string string :=
  {[ "role" := r; "content" := c ]}.

Definition system_message : gmap string string :=
  chat_message "system" "You are a helpful assistant for the DSTL Chat App.".

(** Lines 206-218: the list starts with the system message and each history
    entry is appended in turn. *)
Definition build_llm_messages (history : list Message) : list (gmap string string) :=
  fold_left
    (λ llm_messages m,
       (llm_messages ++ [chat_message (message_role (message_columns m))
                                      (message_content (message_columns m))])%list)
    history [system_message].

(** Lines 184-236. *)
Definition generate_llm_reply
    (client : list (gmap string string) → PyException + string)
    (now : Z) (conversation_id : Z) : Handler MessageRead :=
  conversation ← session_get conversation_id;
  match conversation with
  | None => not_found
  | Some _ =>
      history ← gets (λ session, get_conversation_messages session conversation_id);
      match history with
      | [] => raise (HTTPException 400
                       "No messages in conversation to build a prompt from." None)
      | _ :: _ =>
          r ← generate_llm_response client (build_llm_messages history);
          match r with
          | inl e => raise (HTTPException 500 "LLM call failed" (Some e))
          | inr assistant_text =>
              k ← session_add_message {| message_conversation_id := conversation_id;
                                         message_role := "assistant";
                                         message_content := assistant_text;
                                         message_created_at := now |};
              session_commit;;
              assistant_message ← session_refresh_message k;
              mret (MessageRead_from_orm assistant_message)
          end
      end
  end.

(** The rows of the conversation table as ORM instances, in the order the
    engine yields them for a query without [order_by]. *)
Definition conversation_rows (db : Database) : list Conversation :=
  (λ kt, {| id := kt.1; title := kt.2 |}) <$> map_to_list (conversation_table db).

(** Lines 102-109: one page of conversations, [offset] rows skipped and at
    most [limit] rows taken.  The model covers a non-negative [offset] and
    [limit]; what the engine does with a negative one is left out, and every
    statement about this handler assumes both are non-negative. *)
Definition read_conversations (offset limit : Z) : Handler (list ConversationRead) :=
  conversations ← gets (λ session,
    take (Z.to_nat limit) (drop (Z.to_nat offset) (conversation_rows (pending session))));
  mret (ConversationRead_from_orm <$> conversations).

(** Every message row names a conversation that is in the store. *)
Definition referential_integrity (db : Database) : Prop :=
  map_Forall (λ _ row, is_Some (conversation_table db !! message_conversation_id row))
             (message_table db).

Global Instance referential_integrity_dec db : Decision (referential_integrity db).
Proof. unfold referential_integrity. apply _. Defined.

(** *** Binding the path parameter *)

(** The integers the engine can hold and the driver can bind: SQLite's
    INTEGER is a signed 64-bit value. *)
Definition sqlite_integer (z : Z) : Prop := (- 2 ^ 63 ≤ z < 2 ^ 63)%Z.

Global Instance sqlite_integer_dec z : Decision (sqlite_integer z).
Proof. unfold sqlite_integer. apply _. Defined.

(** [session.get(Conversation, conversation_id)] on any Python int: the id
    is bound as the parameter of the SELECT before the engine looks
    anything up, and the driver raises OverflowError for an int outside the
    signed 64-bit range.  Nothing in main.py catches it. *)
Definition session_get_bound (conversation_id : Z) : Handler (option Conversation) :=
  if decide (sqlite_integer conversation_id) then session_get conversation_id
  else raise (Unhandled (Exception "OverflowError")).

(** A handler called with its path parameter.  The first statement of each
    of the five handlers that take a [conversation_id] is the [session.get]
    on it (lines 116, 133, 154, 170, 192), so an id the driver cannot bind
    ends the request there, before any read or write. *)
Definition with_bound_id {A} (conversation_id : Z) (handler : Z → Handler A) : Handler A :=
  if decide (sqlite_integer conversation_id) then handler conversation_id
  else raise (Unhandled (Exception "OverflowError")).

(** ** Serving a request *)

Record Served (A : Type) := {
  outcome : Outcome A;
  database : Database;
  commits : list Database;
  llm_calls : list (list (gmap string string))
}.
Arguments outcome {A} _.
Arguments database {A} _.
Arguments commits {A} _.
Arguments llm_calls {A} _.

(** A fresh session over the store: nothing pending, nothing logged. *)
Definition begin (db : Database) : World :=
  {| committed := db; pending := db; journal := []; prompts := [] |}.

(** Modelled from the spec: get_session (database.py) is absent.  The spec
    gives each request its own unit of work over the store, committed when
    the handler succeeds and released on every exit; what a failed handler
    left pending is dropped. *)
Definition serve {A} (h : Handler A) (db : Database) : Served A :=
  let '(o, w) := h (begin db) in
  {| outcome := o;
     database := match o with Return _ => pending w | Raise _ => committed w end;
     commits := journal w;
     llm_calls := prompts w |}.

(** ** Sample stores *)

(** What a request refused with "Conversation not found" leaves behind:
    the 404 and an untouched store. *)
Definition refused {A} (db : Database) : Served A :=
  {| outcome := Raise conversation_not_found; database := db;
     commits := []; llm_calls := [] |}.

Definition empty_db : Database := {| conversation_table := ∅; message_table := ∅ |}.

(** Two conversations; the first owns three messages stamped out of key
    order, the second owns one. *)
Definition sample_db : Database :=
  {| conversation_table := {[ 1 := Some "first"; 2 := None ]};
     message_table :=
       {[ 1 := {| message_conversation_id := 1; message_role := "user";
                  message_content := "hi"; message_created_at := 30 |};
          2 := {| message_conversation_id := 2; message_role := "user";
                  message_content := "other"; message_created_at := 5 |};
          3 := {| message_conversation_id := 1; message_role := "assistant";
                  message_content := "hello"; message_created_at := 40 |};
          4 := {| message_conversation_id := 1; message_role := "system";
                  message_content := "early"; message_created_at := 10 |} ]} |}.

(** A conversation without messages. *)
Definition lonely_db : Database :=
  {| conversation_table := {[ 7 := Some "empty" ]}; message_table := ∅ |}.

Definition echo_client (llm_messages : list (gmap string string)) : PyException + string :=
  inr "pong".

Definition failing_client (llm_messages : list (gmap string string)) : PyException + string :=
  inl (Exception "timeout").

(** The scenario of the specification: create an untitled conversation,
    post a message, ask for a reply. *)
Definition step1 : Served ConversationRead :=
  serve (create_conversation {| create_title := None |}) empty_db.

Definition step2 : Served MessageRead :=
  serve (create_message_for_conversation 100 1
           {| create_role := "user"; create_content := "hi" |}) (database step1).

Definition step3 : Served MessageRead :=
  serve (generate_llm_reply echo_client 200 1) (database step2).

Arguments get_conversation_messages : simpl never.
Arguments build_llm_messages : simpl never.
Arguments next_id : simpl never.

(** ** Auxiliary facts *)

Lemma next_id_above {A} (t : gmap Z A) (k : Z) : is_Some (t !! k) → k < next_id t.
Proof.
  unfold next_id.
  apply (map_fold_weak_ind (λ r m, is_Some (m !! k) → k < 1 + r)).
  - rewrite lookup_empty. by intros [? ?].
  - intros i x m r _ IH. rewrite lookup_insert. case_decide; [subst; lia|].
    intros Hk. specialize (IH Hk). lia.
Qed.

Lemma next_id_fresh {A} (t : gmap Z A) : t !! next_id t = None.
Proof.
  apply eq_None_not_Some. intros Hk. apply next_id_above in Hk. lia.
Qed.

Global Instance created_le_total : Total created_le.
Proof. intros m1 m2. unfold created_le. lia. Qed.

Global Instance created_le_trans : Transitive created_le.
Proof. intros m1 m2 m3. unfold created_le. lia. Qed.

Lemma elem_of_message_rows (db : Database) (m : Message) :
  m ∈ message_rows db ↔ message_table db !! message_id m = Some (message_columns m).
Proof.
  unfold message_rows. rewrite list_elem_of_fmap. split.
  - intros [[k c] [-> H]]. by apply elem_of_map_to_list in H.
  - intros H. exists (message_id m, message_columns m). split; [by destruct m|].
    by apply elem_of_map_to_list.
Qed.

Lemma NoDup_message_rows (db : Database) : NoDup (message_rows db).
Proof.
  unfold message_rows. apply NoDup_fmap_2; [|apply NoDup_map_to_list].
  intros [k1 c1] [k2 c2] H. by simplify_eq/=.
Qed.

Lemma elem_of_get_conversation_messages (session : World) (conversation_id : Z) (m : Message) :
  m ∈ get_conversation_messages session conversation_id ↔
    message_table (pending session) !! message_id m = Some (message_columns m)
    ∧ message_conversation_id (message_columns m) = conversation_id.
Proof.
  unfold get_conversation_messages.
  rewrite merge_sort_Permutation, list_elem_of_filter, elem_of_message_rows. tauto.
Qed.

Lemma NoDup_get_conversation_messages (session : World) (conversation_id : Z) :
  NoDup (get_conversation_messages session conversation_id).
Proof.
  unfold get_conversation_messages. rewrite merge_sort_Permutation.
  apply NoDup_filter, NoDup_message_rows.
Qed.

Lemma get_conversation_messages_sorted (session : World) (conversation_id : Z) :
  StronglySorted Z.le
    ((λ m, message_created_at (message_columns m))
       <$> get_conversation_messages session conversation_id).
Proof.
  apply StronglySorted_fmap with (R1 := created_le); [done|].
  apply StronglySorted_merge_sort; apply _.
Qed.

Lemma build_llm_messages_from (history : list Message) (init : list (gmap string string)) :
  fold_left
    (λ llm_messages m,
       (llm_messages ++ [chat_message (message_role (message_columns m))
                                      (message_content (message_columns m))])%list)
    history init
  = (init ++ ((λ m, chat_message (message_role (message_columns m))
                                 (message_content (message_columns m))) <$> history))%list.
Proof.
  revert init. induction history as [|m history IH]; intros init; simpl.
  - by rewrite app_nil_r.
  - rewrite IH. by rewrite <- app_assoc.
Qed.

Lemma build_llm_messages_cons (history : list Message) :
  build_llm_messages history
  = system_message :: ((λ m, chat_message (message_role (message_columns m))
                                          (message_content (message_columns m))) <$> history).
Proof. unfold build_llm_messages. by rewrite build_llm_messages_from. Qed.

(** Unfolds the monad and the session primitives, leaving the table
    operations and the queries folded. *)
Ltac run :=
  unfold serve, begin,
    create_conversation, read_conversation, delete_conversation,
    read_messages_for_conversation, create_message_for_conversation, generate_llm_reply,
    session_get, session_add_conversation, session_set_title, session_add_message,
    session_delete_conversation, session_commit, session_refresh_conversation,
    session_refresh_message, generate_llm_response, not_found, raise, gets, with_pending,
    mbind, mret, Handler_bind, Handler_ret;
  simpl.


Lemma history_empty (db : Database) (conversation_id : Z) :
  owned_messages db conversation_id = ∅ →
  get_conversation_messages (begin db) conversation_id = [].
Proof.
  intros Hnone.
  destruct (get_conversation_messages (begin db) conversation_id) as [|m l] eqn:E; [done|].
  assert (Hin : m ∈ get_conversation_messages (begin db) conversation_id)
    by (rewrite E; left).
  apply elem_of_get_conversation_messages in Hin as [Hk Hc].
  assert (Hown : owned_messages db conversation_id !! message_id m
                 = Some (message_columns m))
    by (by apply map_lookup_filter_Some).
  by rewrite Hnone, lookup_empty in Hown.
Qed.

Lemma history_nonempty (db : Database) (conversation_id : Z) :
  owned_messages db conversation_id ≠ ∅ →
  get_conversation_messages (begin db) conversation_id ≠ [].
Proof.
  intros Hsome Hnil. apply map_choose in Hsome as (k & c & Hkc).
  apply map_lookup_filter_Some in Hkc as [Hk Hc]. simpl in Hc.
  assert (Hin : {| message_id := k; message_columns := c |}
                  ∈ get_conversation_messages (begin db) conversation_id)
    by (by apply elem_of_get_conversation_messages).
  rewrite Hnil in Hin. by apply not_elem_of_nil in Hin.
Qed.

(** ** The claims *)

(** [with_bound_id] is the handler with the binding done inside its first
    [session.get]. *)
Lemma with_bound_id_is_bound_get {A} (conversation_id : Z)
    (rest : Z → option Conversation → Handler A) :
  with_bound_id conversation_id (λ i, session_get i ≫= rest i)
  = (session_get_bound conversation_id ≫= rest conversation_id).
Proof.
  unfold with_bound_id, session_get_bound.
  by destruct (decide (sqlite_integer conversation_id)).
Qed.

(** Each of the five handlers is of that shape. *)
Lemma handlers_begin_with_session_get
    (now : Z) (message_in : MessageCreate)
    (client : list (gmap string string) → PyException + string) :
  (∃ rest, read_conversation = λ i, session_get i ≫= rest i)
  ∧ (∃ rest, delete_conversation = λ i, session_get i ≫= rest i)
  ∧ (∃ rest, read_messages_for_conversation = λ i, session_get i ≫= rest i)
  ∧ (∃ rest, (λ i, create_message_for_conversation now i message_in)
             = λ i, session_get i ≫= rest i)
  ∧ (∃ rest, generate_llm_reply client now = λ i, session_get i ≫= rest i).
Proof. repeat split; eexists; reflexivity. Qed.

Lemma with_bound_id_in_range {A} (conversation_id : Z) (handler : Z → Handler A) :
  sqlite_integer conversation_id →
  with_bound_id conversation_id handler = handler conversation_id.
Proof. intros Hid. unfold with_bound_id. by rewrite decide_True. Qed.

Lemma with_bound_id_out_of_range {A} (conversation_id : Z) (handler : Z → Handler A)
    (db : Database) :
  ¬ sqlite_integer conversation_id →
  serve (with_bound_id conversation_id handler) db
  = {| outcome := Raise (Unhandled (Exception "OverflowError"));
       database := db; commits := []; llm_calls := [] |}.
Proof. intros Hid. unfold with_bound_id. by rewrite decide_False. Qed.

(** C3 as stated fails: the id 2^63 is absent from the sample store, and
    reading its messages, posting a message to it and asking for an LLM
    reply on it each end in the unhandled OverflowError of [session.get],
    which is a server error (status 500), not the 404. *)
Lemma absent_conversation_out_of_range_is_server_error :
  let big := 9223372036854775808 in
  let message_in := {| create_role := "user"; create_content := "x" |} in
  conversation_table sample_db !! big = None
  ∧ outcome (serve (with_bound_id big read_messages_for_conversation) sample_db)
    = Raise (Unhandled (Exception "OverflowError"))
  ∧ outcome (serve (with_bound_id big
                      (λ i, create_message_for_conversation 50 i message_in)) sample_db)
    = Raise (Unhandled (Exception "OverflowError"))
  ∧ outcome (serve (with_bound_id big (generate_llm_reply echo_client 50)) sample_db)
    = Raise (Unhandled (Exception "OverflowError"))
  ∧ status (outcome (serve (with_bound_id big read_messages_for_conversation) sample_db))
    = 500
  ∧ outcome (serve (with_bound_id big read_messages_for_conversation) sample_db)
    ≠ Raise conversation_not_found.
Proof. repeat split. discriminate. Qed.

(** C3, amended: for a conversation id within the signed 64-bit range that
    is absent from the store, reading the messages, creating a message and
    asking for an LLM reply each raise the HTTPException with status 404
    (not a server error), commit nothing, never call the LLM client, and
    leave the store as it was. *)
Theorem absent_conversation_in_range_is_not_found
    (db : Database) (conversation_id now : Z) (message_in : MessageCreate)
    (client : list (gmap string string) → PyException + string) :
  sqlite_integer conversation_id →
  conversation_table db !! conversation_id = None →
  serve (with_bound_id conversation_id read_messages_for_conversation) db = refused db
  ∧ serve (with_bound_id conversation_id
             (λ i, create_message_for_conversation now i message_in)) db = refused db
  ∧ serve (with_bound_id conversation_id (generate_llm_reply client now)) db = refused db
  ∧ status (outcome (refused db : Served MessageRead)) = 404
  ∧ database (refused db : Served MessageRead) = db.
Proof.
  intros Hid Habsent. rewrite !with_bound_id_in_range by done.
  repeat split; run; by rewrite Habsent.
Qed.

Lemma absent_conversation_in_range_is_not_found_witness :
  sqlite_integer 9223372036854775807
  ∧ conversation_table sample_db !! 9223372036854775807 = None
  ∧ outcome (serve (with_bound_id 9223372036854775807 (generate_llm_reply echo_client 50))
               sample_db)
    = Raise conversation_not_found
  ∧ outcome (serve (with_bound_id (-9223372036854775808) read_messages_for_conversation)
               sample_db)
    = Raise conversation_not_found.
Proof.
  assert (Hmax : sqlite_integer 9223372036854775807) by (by vm_compute).
  assert (Hmin : sqlite_integer (-9223372036854775808)) by (by vm_compute).
  split; [exact Hmax|]. split; [reflexivity|].
  pose proof (absent_conversation_in_range_is_not_found sample_db 9223372036854775807 50
                {| create_role := "user"; create_content := "x" |} echo_client
                Hmax eq_refl) as (_ & _ & Hreply & _).
  pose proof (absent_conversation_in_range_is_not_found sample_db (-9223372036854775808) 50
                {| create_role := "user"; create_content := "x" |} echo_client
                Hmin eq_refl) as (Hread & _).
  rewrite Hreply, Hread. split; reflexivity.
Defined.

(** C4: for an existing conversation that owns no message, the LLM-reply
    handler raises the HTTPException with status 400, the LLM client is not
    called, nothing is committed and the store is unchanged. *)
Theorem llm_reply_on_empty_history
    (db : Database) (conversation_id now : Z) (t : option string)
    (client : list (gmap string string) → PyException + string) :
  conversation_table db !! conversation_id = Some t →
  owned_messages db conversation_id = ∅ →
  serve (generate_llm_reply client now conversation_id) db
  = {| outcome := Raise (HTTPException 400
                           "No messages in conversation to build a prompt from." None);
       database := db; commits := []; llm_calls := [] |}.
Proof.
  intros Hconv Hnone. apply history_empty in Hnone. unfold begin in Hnone.
  run. rewrite Hconv. simpl. by rewrite Hnone.
Qed.

Lemma llm_reply_on_empty_history_witness :
  serve (generate_llm_reply echo_client 50 7) lonely_db
  = {| outcome := Raise (HTTPException 400
                           "No messages in conversation to build a prompt from." None);
       database := lonely_db; commits := []; llm_calls := [] |}.
Proof.
  apply (llm_reply_on_empty_history lonely_db 7 50 (Some "empty") echo_client);
    vm_compute; reflexivity.
Defined.

(** C5: for an existing conversation with at least one message, when the
    LLM client raises [e] on the prompt, the LLM-reply handler raises the
    HTTPException with status 500 whose cause is [e]; nothing is committed
    and the store is unchanged. *)
Theorem llm_failure_is_server_error
    (db : Database) (conversation_id now : Z) (t : option string) (e : PyException)
    (client : list (gmap string string) → PyException + string) :
  conversation_table db !! conversation_id = Some t →
  owned_messages db conversation_id ≠ ∅ →
  client (build_llm_messages (get_conversation_messages (begin db) conversation_id))
    = inl e →
  let served := serve (generate_llm_reply client now conversation_id) db in
  outcome served = Raise (HTTPException 500 "LLM call failed" (Some e))
  ∧ status (outcome served) = 500
  ∧ database served = db
  ∧ commits served = [].
Proof.
  intros Hconv Hsome Hraise. apply history_nonempty in Hsome.
  unfold begin in *. run. rewrite Hconv. simpl.
  destruct (get_conversation_messages _ conversation_id) as [|m history] eqn:E; [done|].
  rewrite Hraise. by simpl.
Qed.

Lemma llm_failure_is_server_error_witness :
  outcome (serve (generate_llm_reply failing_client 50 1) sample_db)
  = Raise (HTTPException 500 "LLM call failed" (Some (Exception "timeout"))).
Proof.
  apply (llm_failure_is_server_error sample_db 1 50 (Some "first")
           (Exception "timeout") failing_client);
    [reflexivity | by vm_compute | reflexivity].
Defined.

(** C1: for an existing conversation with at least one message, when the
    LLM client returns [text] on the prompt, the LLM-reply handler commits
    once, the committed message table is the old one plus one row under a
    fresh key, owned by the conversation, with role "assistant" and content
    [text], and the handler returns that row with its key and conversation
    id. *)
Theorem llm_reply_stores_assistant_message
    (db : Database) (conversation_id now : Z) (t : option string) (text : string)
    (client : list (gmap string string) → PyException + string) :
  conversation_table db !! conversation_id = Some t →
  owned_messages db conversation_id ≠ ∅ →
  client (build_llm_messages (get_conversation_messages (begin db) conversation_id))
    = inr text →
  let served := serve (generate_llm_reply client now conversation_id) db in
  let k := next_id (message_table db) in
  let row := {| message_conversation_id := conversation_id; message_role := "assistant";
                message_content := text; message_created_at := now |} in
  message_table db !! k = None
  ∧ outcome served = Return {| read_id := k; read_conversation_id := conversation_id;
                               read_role := "assistant"; read_content := text |}
  ∧ message_table (database served) = <[k := row]> (message_table db)
  ∧ owned_messages (database served) conversation_id
    = <[k := row]> (owned_messages db conversation_id)
  ∧ conversation_table (database served) = conversation_table db
  ∧ commits served = [database served].
Proof.
  intros Hconv Hsome Hreply. apply history_nonempty in Hsome.
  split; [apply next_id_fresh|].
  unfold begin in *. run. rewrite Hconv. simpl.
  destruct (get_conversation_messages _ conversation_id) as [|m history] eqn:E; [done|].
  rewrite Hreply. simpl. rewrite lookup_insert_eq. simpl.
  repeat split.
  unfold owned_messages. simpl. by rewrite map_filter_insert_True.
Qed.

Lemma llm_reply_stores_assistant_message_witness :
  outcome (serve (generate_llm_reply echo_client 50 1) sample_db)
  = Return {| read_id := 5; read_conversation_id := 1;
              read_role := "assistant"; read_content := "pong" |}.
Proof.
  apply (llm_reply_stores_assistant_message sample_db 1 50 (Some "first") "pong" echo_client);
    [reflexivity | by vm_compute | reflexivity].
Defined.

Lemma chat_message_lookup (r c : string) :
  chat_message r c !! "role" = Some r ∧ chat_message r c !! "content" = Some c
  ∧ dom (chat_message r c) = {[ "role"; "content" ]}.
Proof.
  unfold chat_message. split; [|split].
  - apply lookup_insert_eq.
  - rewrite lookup_insert_ne by done. apply lookup_singleton_eq.
  - rewrite dom_insert_L, dom_singleton_L. set_solver.
Qed.

(** C8: for an existing conversation with at least one message, the LLM
    client is called once, with the fixed system message followed by one
    entry per message of the history, in the order of the history; the
    entry of a message carries its role and its content; the history holds
    every message of the conversation once, by ascending creation time. *)
Theorem llm_prompt_is_system_then_history
    (db : Database) (conversation_id now : Z) (t : option string)
    (client : list (gmap string string) → PyException + string) :
  conversation_table db !! conversation_id = Some t →
  owned_messages db conversation_id ≠ ∅ →
  let history := get_conversation_messages (begin db) conversation_id in
  let entry (m : Message) : gmap string string :=
    {[ "role" := message_role (message_columns m);
       "content" := message_content (message_columns m) ]} in
  llm_calls (serve (generate_llm_reply client now conversation_id) db)
    = [ {[ "role" := "system";
           "content" := "You are a helpful assistant for the DSTL Chat App." ]}
        :: (entry <$> history) ]
  ∧ (∀ m, entry m !! "role" = Some (message_role (message_columns m))
          ∧ entry m !! "content" = Some (message_content (message_columns m)))
  ∧ (∀ m, m ∈ history ↔
            message_table db !! message_id m = Some (message_columns m)
            ∧ message_conversation_id (message_columns m) = conversation_id)
  ∧ NoDup history
  ∧ StronglySorted Z.le ((λ m, message_created_at (message_columns m)) <$> history).
Proof.
  intros Hconv Hsome history entry. split; [|split; [|split; [|split]]].
  - apply history_nonempty in Hsome. fold history in Hsome.
    subst history. unfold begin in *. run. rewrite Hconv. simpl.
    destruct (get_conversation_messages _ conversation_id) as [|m l] eqn:E; [done|].
    rewrite build_llm_messages_cons.
    destruct (client _) as [e|text]; simpl; [done|].
    by rewrite lookup_insert_eq.
  - intros m. pose proof (chat_message_lookup (message_role (message_columns m))
                            (message_content (message_columns m))) as (? & ? & _).
    done.
  - intros m. apply elem_of_get_conversation_messages.
  - apply NoDup_get_conversation_messages.
  - apply get_conversation_messages_sorted.
Qed.

Lemma llm_prompt_is_system_then_history_witness :
  llm_calls (serve (generate_llm_reply echo_client 50 1) sample_db)
  = [ [ chat_message "system" "You are a helpful assistant for the DSTL Chat App.";
        chat_message "system" "early";
        chat_message "user" "hi";
        chat_message "assistant" "hello" ] ].
Proof.
  pose proof (llm_prompt_is_system_then_history sample_db 1 50 (Some "first") echo_client
                eq_refl ltac:(by vm_compute)) as [H _].
  rewrite H. reflexivity.
Defined.

(** C7: creating a conversation without a title stores it under the key
    assigned at insert with the title "Conversation " followed by that key
    in decimal; the handler commits twice, first the row without title,
    then the row with the default title, and returns the key and the
    default title. *)
Theorem untitled_conversation_gets_default_title (db : Database) :
  let served := serve (create_conversation {| create_title := None |}) db in
  let k := next_id (conversation_table db) in
  let auto_title := Some ("Conversation " +:+ pretty k) in
  conversation_table db !! k = None
  ∧ outcome served
    = Return {| conversation_read_id := k; conversation_read_title := auto_title |}
  ∧ conversation_table (database served) = <[k := auto_title]> (conversation_table db)
  ∧ message_table (database served) = message_table db
  ∧ commits served
    = [ {| conversation_table := <[k := None]> (conversation_table db);
           message_table := message_table db |};
        {| conversation_table := <[k := auto_title]> (conversation_table db);
           message_table := message_table db |} ].
Proof.
  split; [apply next_id_fresh|].
  run. rewrite lookup_insert_eq. simpl.
  rewrite alter_insert_eq, lookup_insert_eq. simpl.
  repeat split.
Qed.

Lemma untitled_conversation_gets_default_title_witness :
  outcome (serve (create_conversation {| create_title := None |}) sample_db)
  = Return {| conversation_read_id := 3; conversation_read_title := Some "Conversation 3" |}.
Proof.
  pose proof (untitled_conversation_gets_default_title sample_db) as (_ & Hout & _).
  exact Hout.
Defined.

(** C9: creating a conversation with a title that is given, the empty string
    included, stores that title unchanged under the key assigned at insert
    and commits once; the default title is not assigned. *)
Theorem given_title_is_kept (db : Database) (given : string) :
  let served := serve (create_conversation {| create_title := Some given |}) db in
  let k := next_id (conversation_table db) in
  conversation_table db !! k = None
  ∧ outcome served
    = Return {| conversation_read_id := k; conversation_read_title := Some given |}
  ∧ conversation_table (database served) = <[k := Some given]> (conversation_table db)
  ∧ conversation_table (database served) !! k = Some (Some given)
  ∧ message_table (database served) = message_table db
  ∧ commits served = [database served].
Proof.
  split; [apply next_id_fresh|].
  run. rewrite lookup_insert_eq. simpl.
  repeat split. apply lookup_insert_eq.
Qed.

Lemma given_title_is_kept_witness :
  outcome (serve (create_conversation {| create_title := Some "" |}) sample_db)
  = Return {| conversation_read_id := 3; conversation_read_title := Some "" |}
  ∧ conversation_table
      (database (serve (create_conversation {| create_title := Some "" |}) sample_db)) !! 3
    = Some (Some "").
Proof.
  pose proof (given_title_is_kept sample_db "") as (_ & Hout & _ & Hrow & _).
  split; [exact Hout | exact Hrow].
Defined.

(** The loop of lines 139-140 removes the listed keys from the pending
    message table and touches nothing else. *)
Lemma for_each_delete_message (ms : list Message) (w : World) :
  for_each ms session_delete_message w
  = (Return (),
     {| committed := committed w;
        pending := {| conversation_table := conversation_table (pending w);
                      message_table :=
                        fold_left (λ tbl m, delete (message_id m) tbl) ms
                                  (message_table (pending w)) |};
        journal := journal w; prompts := prompts w |}).
Proof.
  revert w. induction ms as [|m ms IH]; intros [c [ct mt] j p]; [done|].
  simpl. unfold mbind, Handler_bind. simpl. by rewrite IH.
Qed.

Lemma lookup_delete_all (ms : list Message) (tbl : gmap Z MessageColumns) (k : Z) :
  fold_left (λ tbl m, delete (message_id m) tbl) ms tbl !! k
  = if decide (k ∈ message_id <$> ms) then None else tbl !! k.
Proof.
  revert tbl. induction ms as [|m ms IH]; intros tbl; cbn [fold_left].
  - case_decide as Hin; [by apply not_elem_of_nil in Hin|done].
  - rewrite IH, lookup_delete, fmap_cons.
    destruct (decide (k ∈ message_id <$> ms)) as [Hin|Hout].
    + by rewrite decide_True by (by right).
    + destruct (decide (message_id m = k)) as [Heq|Hne].
      * by rewrite decide_True by (by rewrite Heq; left).
      * rewrite decide_False; [done|].
        intros [Heq|Hin]%elem_of_cons; [by apply Hne|by apply Hout].
Qed.

(** Deleting the selected messages leaves the rows of the other
    conversations. *)
Lemma delete_owned_messages (db : Database) (conversation_id : Z) :
  fold_left (λ tbl m, delete (message_id m) tbl)
            (get_conversation_messages (begin db) conversation_id) (message_table db)
  = filter (λ kc, message_conversation_id kc.2 ≠ conversation_id) (message_table db).
Proof.
  apply map_eq. intros k. rewrite lookup_delete_all, map_lookup_filter.
  destruct (decide (k ∈ message_id <$> _)) as [Hin|Hout].
  - apply list_elem_of_fmap in Hin as (m & -> & Hm).
    apply elem_of_get_conversation_messages in Hm as [Hrow Hc]. simpl in Hrow.
    rewrite Hrow. simpl. by rewrite option_guard_False by (simpl; tauto).
  - destruct (message_table db !! k) as [c|] eqn:Hk; [|done]. simpl.
    rewrite option_guard_True; [done|]. simpl. intros Hc. apply Hout.
    apply list_elem_of_fmap. exists {| message_id := k; message_columns := c |}.
    split; [done|]. by apply elem_of_get_conversation_messages.
Qed.

Lemma delete_conversation_absent (db : Database) (conversation_id : Z) :
  conversation_table db !! conversation_id = None →
  serve (delete_conversation conversation_id) db = refused db.
Proof. intros Habsent. run. by rewrite Habsent. Qed.

Lemma delete_conversation_present (db : Database) (conversation_id : Z) (t : option string) :
  conversation_table db !! conversation_id = Some t →
  let after :=
    {| conversation_table := delete conversation_id (conversation_table db);
       message_table :=
         filter (λ kc, message_conversation_id kc.2 ≠ conversation_id) (message_table db) |} in
  serve (delete_conversation conversation_id) db
  = {| outcome := Return {[ "ok" := true ]}; database := after;
       commits := [after]; llm_calls := [] |}.
Proof.
  intros Hconv. pose proof (delete_owned_messages db conversation_id) as Hdel.
  unfold begin in Hdel. run. rewrite Hconv. simpl.
  rewrite for_each_delete_message. simpl. by rewrite Hdel.
Qed.

Lemma read_absent (db : Database) (conversation_id : Z) :
  conversation_table db !! conversation_id = None →
  serve (read_conversation conversation_id) db = refused db.
Proof. intros Habsent. run. by rewrite Habsent. Qed.

(** C6: deleting an existing conversation returns the acknowledgement
    [ok = true] and commits once a store without the conversation and
    without any message owned by it (the other rows are kept); reading the
    conversation or its messages afterwards raises the HTTPException with
    status 404. *)
Theorem delete_removes_conversation_and_messages
    (db : Database) (conversation_id : Z) (t : option string) :
  conversation_table db !! conversation_id = Some t →
  let served := serve (delete_conversation conversation_id) db in
  let after := database served in
  outcome served = Return {[ "ok" := true ]}
  ∧ conversation_table after = delete conversation_id (conversation_table db)
  ∧ message_table after
    = filter (λ kc, message_conversation_id kc.2 ≠ conversation_id) (message_table db)
  ∧ conversation_table after !! conversation_id = None
  ∧ owned_messages after conversation_id = ∅
  ∧ commits served = [after]
  ∧ outcome (serve (read_conversation conversation_id) after)
    = Raise conversation_not_found
  ∧ outcome (serve (read_messages_for_conversation conversation_id) after)
    = Raise conversation_not_found.
Proof.
  intros Hconv served after. subst after served.
  rewrite (delete_conversation_present db conversation_id t Hconv). simpl.
  assert (Hgone : delete conversation_id (conversation_table db) !! conversation_id = None)
    by apply lookup_delete_eq.
  repeat split; try done.
  - unfold owned_messages. simpl. apply map_empty. intros k.
    apply map_lookup_filter_None. right. intros c Hc Hown. simpl in Hown.
    apply map_lookup_filter_Some in Hc as [_ Hother]. by apply Hother.
  - by rewrite read_absent.
  - run. by rewrite Hgone.
Qed.

Lemma delete_removes_conversation_and_messages_witness :
  outcome (serve (delete_conversation 1) sample_db) = Return {[ "ok" := true ]}
  ∧ outcome (serve (read_conversation 1) (database (serve (delete_conversation 1) sample_db)))
    = Raise conversation_not_found.
Proof.
  pose proof (delete_removes_conversation_and_messages sample_db 1 (Some "first") eq_refl)
    as (Hok & _ & _ & _ & _ & _ & Hread & _).
  split; [exact Hok | exact Hread].
Defined.

(** C10: deleting conversation [c] leaves every other conversation [c'] as
    it was, leaves the messages owned by [c'] as they were, adds no message,
    and every message that is gone was owned by [c]. *)
Theorem delete_leaves_other_conversations (db : Database) (c c' : Z) :
  c ≠ c' →
  let after := database (serve (delete_conversation c) db) in
  conversation_table after !! c' = conversation_table db !! c'
  ∧ owned_messages after c' = owned_messages db c'
  ∧ (∀ k row, message_table db !! k = Some row → message_conversation_id row = c' →
              message_table after !! k = Some row)
  ∧ message_table after ⊆ message_table db
  ∧ (∀ k row, message_table db !! k = Some row → message_table after !! k = None →
              message_conversation_id row = c).
Proof.
  intros Hne after. subst after.
  destruct (conversation_table db !! c) as [t|] eqn:Hconv.
  - rewrite (delete_conversation_present db c t Hconv). simpl.
    split; [by apply lookup_delete_ne|].
    split; [|split; [|split]].
    + unfold owned_messages. simpl. apply map_eq. intros k.
      rewrite !map_lookup_filter.
      destruct (message_table db !! k) as [row|]; [|done]. simpl.
      destruct (decide (message_conversation_id row = c)) as [Hc|Hc].
      * rewrite (option_guard_False (_ ≠ c)) by (simpl; tauto). simpl.
        rewrite !option_guard_False; [done|simpl; congruence].
      * by rewrite (option_guard_True (_ ≠ c)) by done.
    + intros k row Hrow Hown. apply map_lookup_filter_Some. split; [done|].
      simpl. congruence.
    + apply map_filter_subseteq.
    + intros k row Hrow Hgone. apply map_lookup_filter_None in Hgone as [Hgone|Hgone].
      * congruence.
      * specialize (Hgone row Hrow). simpl in Hgone.
        by destruct (decide (message_conversation_id row = c)).
  - rewrite (delete_conversation_absent db c Hconv). simpl.
    repeat split; try done. congruence.
Qed.

Lemma delete_leaves_other_conversations_witness :
  conversation_table (database (serve (delete_conversation 1) sample_db)) !! 2
  = conversation_table sample_db !! 2.
Proof.
  apply (delete_leaves_other_conversations sample_db 1 2). lia.
Defined.

(** C2: for an existing conversation, the query behind the three readers
    yields every message of the conversation once, by ascending creation
    time; read-one-conversation and list-messages return that list entry by
    entry, and the LLM-reply handler builds its prompt from that list (and
    calls nothing when the list is empty). *)
Theorem messages_are_in_creation_order
    (db : Database) (conversation_id now : Z) (t : option string)
    (client : list (gmap string string) → PyException + string) :
  conversation_table db !! conversation_id = Some t →
  let history := get_conversation_messages (begin db) conversation_id in
  StronglySorted Z.le ((λ m, message_created_at (message_columns m)) <$> history)
  ∧ NoDup history
  ∧ (∀ m, m ∈ history ↔
            message_table db !! message_id m = Some (message_columns m)
            ∧ message_conversation_id (message_columns m) = conversation_id)
  ∧ outcome (serve (read_conversation conversation_id) db)
    = Return {| with_messages_id := conversation_id; with_messages_title := t;
                messages := MessageRead_from_orm <$> history |}
  ∧ outcome (serve (read_messages_for_conversation conversation_id) db)
    = Return (MessageRead_from_orm <$> history)
  ∧ llm_calls (serve (generate_llm_reply client now conversation_id) db)
    = match history with
      | [] => []
      | _ :: _ => [build_llm_messages history]
      end.
Proof.
  intros Hconv history.
  split; [apply get_conversation_messages_sorted|].
  split; [apply NoDup_get_conversation_messages|].
  split; [intros m; apply elem_of_get_conversation_messages|].
  subst history. unfold begin. repeat split.
  - run. by rewrite Hconv.
  - run. by rewrite Hconv.
  - run. rewrite Hconv. simpl.
    destruct (get_conversation_messages _ conversation_id) as [|m l]; [done|].
    destruct (client _) as [e|text]; simpl; [done|].
    by rewrite lookup_insert_eq.
Qed.

Lemma messages_are_in_creation_order_witness :
  outcome (serve (read_messages_for_conversation 1) sample_db)
  = Return [ {| read_id := 4; read_conversation_id := 1;
                read_role := "system"; read_content := "early" |};
             {| read_id := 1; read_conversation_id := 1;
                read_role := "user"; read_content := "hi" |};
             {| read_id := 3; read_conversation_id := 1;
                read_role := "assistant"; read_content := "hello" |} ].
Proof.
  pose proof (messages_are_in_creation_order sample_db 1 50 (Some "first") echo_client
                eq_refl) as (_ & _ & _ & _ & H & _).
  rewrite H. reflexivity.
Defined.

(** ** The scenario of the specification, run on the model *)

Example scenario_create :
  outcome step1
  = Return {| conversation_read_id := 1; conversation_read_title := Some "Conversation 1" |}.
Proof. reflexivity. Qed.

Example scenario_post :
  outcome step2
  = Return {| read_id := 1; read_conversation_id := 1;
              read_role := "user"; read_content := "hi" |}.
Proof. reflexivity. Qed.

Example scenario_reply :
  outcome step3
  = Return {| read_id := 2; read_conversation_id := 1;
              read_role := "assistant"; read_content := "pong" |}
  ∧ outcome (serve (read_messages_for_conversation 1) (database step3))
    = Return [ {| read_id := 1; read_conversation_id := 1;
                  read_role := "user"; read_content := "hi" |};
               {| read_id := 2; read_conversation_id := 1;
                  read_role := "assistant"; read_content := "pong" |} ].
Proof. split; reflexivity. Qed.

Example scenario_delete :
  message_table (database (serve (delete_conversation 1) sample_db))
  = {[ 2 := {| message_conversation_id := 2; message_role := "user";
               message_content := "other"; message_created_at := 5 |} ]}
  ∧ conversation_table (database (serve (delete_conversation 1) sample_db))
    = {[ 2 := None ]}.
Proof. split; reflexivity. Qed.

(** ** Further properties of the handlers *)

(** What each writing handler leaves behind, case by case. *)

Lemma create_conversation_served (db : Database) (conversation : ConversationCreate) :
  let k := next_id (conversation_table db) in
  let stored := match create_title conversation with
                | None => Some ("Conversation " +:+ pretty k)
                | Some given => Some given
                end in
  let after := {| conversation_table := <[k := stored]> (conversation_table db);
                  message_table := message_table db |} in
  serve (create_conversation conversation) db
  = {| outcome := Return {| conversation_read_id := k; conversation_read_title := stored |};
       database := after;
       commits := match create_title conversation with
                  | None => [ {| conversation_table := <[k := None]> (conversation_table db);
                                 message_table := message_table db |}; after ]
                  | Some _ => [after]
                  end;
       llm_calls := [] |}.
Proof.
  destruct conversation as [[given|]]; run; rewrite lookup_insert_eq; simpl; [done|].
  by rewrite alter_insert_eq, lookup_insert_eq.
Qed.

Lemma create_message_served
    (db : Database) (now conversation_id : Z) (message_in : MessageCreate) (t : option string) :
  conversation_table db !! conversation_id = Some t →
  let k := next_id (message_table db) in
  let row := {| message_conversation_id := conversation_id;
                message_role := create_role message_in;
                message_content := create_content message_in;
                message_created_at := now |} in
  let after := {| conversation_table := conversation_table db;
                  message_table := <[k := row]> (message_table db) |} in
  serve (create_message_for_conversation now conversation_id message_in) db
  = {| outcome := Return (MessageRead_from_orm {| message_id := k; message_columns := row |});
       database := after; commits := [after]; llm_calls := [] |}.
Proof.
  intros Hconv. run. rewrite Hconv. simpl. by rewrite lookup_insert_eq.
Qed.

Lemma create_message_absent
    (db : Database) (now conversation_id : Z) (message_in : MessageCreate) :
  conversation_table db !! conversation_id = None →
  serve (create_message_for_conversation now conversation_id message_in) db = refused db.
Proof. intros Habsent. run. by rewrite Habsent. Qed.

(** The four ways the LLM-reply handler can end. *)
Lemma generate_llm_reply_served
    (db : Database) (now conversation_id : Z)
    (client : list (gmap string string) → PyException + string) :
  let history := get_conversation_messages (begin db) conversation_id in
  serve (generate_llm_reply client now conversation_id) db
  = match conversation_table db !! conversation_id with
    | None => refused db
    | Some _ =>
        match history with
        | [] => {| outcome := Raise (HTTPException 400
                                "No messages in conversation to build a prompt from." None);
                   database := db; commits := []; llm_calls := [] |}
        | _ :: _ =>
            match client (build_llm_messages history) with
            | inl e => {| outcome := Raise (HTTPException 500 "LLM call failed" (Some e));
                          database := db; commits := [];
                          llm_calls := [build_llm_messages history] |}
            | inr text =>
                let k := next_id (message_table db) in
                let row := {| message_conversation_id := conversation_id;
                              message_role := "assistant"; message_content := text;
                              message_created_at := now |} in
                let after := {| conversation_table := conversation_table db;
                                message_table := <[k := row]> (message_table db) |} in
                {| outcome := Return (MessageRead_from_orm
                                        {| message_id := k; message_columns := row |});
                   database := after; commits := [after];
                   llm_calls := [build_llm_messages history] |}
            end
        end
    end.
Proof.
  intros history. subst history. unfold begin. run.
  destruct (conversation_table db !! conversation_id) as [t|]; simpl; [|done].
  destruct (get_conversation_messages _ conversation_id) as [|m l]; [done|].
  destruct (client _) as [e|text]; simpl; [done|].
  by rewrite lookup_insert_eq.
Qed.

(** X1: posting a message to an existing conversation commits once; the
    committed message table is the old one plus one row under a key not in
    use, carrying the conversation id, the role and the content of the
    request and the clock reading; the conversations are untouched, the LLM
    client is not called, and the handler returns the row with its key. *)
Theorem create_message_stores_row
    (db : Database) (now conversation_id : Z) (message_in : MessageCreate) (t : option string) :
  conversation_table db !! conversation_id = Some t →
  let served := serve (create_message_for_conversation now conversation_id message_in) db in
  let k := next_id (message_table db) in
  let row := {| message_conversation_id := conversation_id;
                message_role := create_role message_in;
                message_content := create_content message_in;
                message_created_at := now |} in
  message_table db !! k = None
  ∧ outcome served = Return {| read_id := k; read_conversation_id := conversation_id;
                               read_role := create_role message_in;
                               read_content := create_content message_in |}
  ∧ message_table (database served) = <[k := row]> (message_table db)
  ∧ owned_messages (database served) conversation_id
    = <[k := row]> (owned_messages db conversation_id)
  ∧ conversation_table (database served) = conversation_table db
  ∧ commits served = [database served]
  ∧ llm_calls served = [].
Proof.
  intros Hconv served k row. subst served.
  rewrite (create_message_served db now conversation_id message_in t Hconv). simpl.
  split; [apply next_id_fresh|]. repeat split.
  unfold owned_messages. simpl. by rewrite map_filter_insert_True.
Qed.

Lemma create_message_stores_row_witness :
  outcome (serve (create_message_for_conversation 60 2
                    {| create_role := "user"; create_content := "more" |}) sample_db)
  = Return {| read_id := 5; read_conversation_id := 2;
              read_role := "user"; read_content := "more" |}.
Proof.
  apply (create_message_stores_row sample_db 60 2
           {| create_role := "user"; create_content := "more" |} None).
  reflexivity.
Defined.

(** X2: reading one conversation or the messages of a conversation, whether
    the id is in the store or not, commits nothing, calls no LLM client and
    leaves the store as it was; so does listing a page of conversations. *)
Theorem reads_leave_the_store (db : Database) (conversation_id offset limit : Z) :
  (0 ≤ offset)%Z → (0 ≤ limit)%Z →
  let one := serve (read_conversation conversation_id) db in
  let listed := serve (read_messages_for_conversation conversation_id) db in
  let page := serve (read_conversations offset limit) db in
  (database one = db ∧ commits one = [] ∧ llm_calls one = [])
  ∧ (database listed = db ∧ commits listed = [] ∧ llm_calls listed = [])
  ∧ (database page = db ∧ commits page = [] ∧ llm_calls page = []).
Proof.
  intros _ _. unfold read_conversations. run.
  by destruct (conversation_table db !! conversation_id).
Qed.

Lemma reads_leave_the_store_witness :
  database (serve (read_conversation 1) sample_db) = sample_db
  ∧ database (serve (read_conversations 0 100) sample_db) = sample_db.
Proof.
  pose proof (reads_leave_the_store sample_db 1 0 100 ltac:(lia) ltac:(lia))
    as ((H1 & _) & _ & (H3 & _)).
  split; [exact H1 | exact H3].
Defined.

(** X3: reading one conversation and deleting a conversation with an id
    within the signed 64-bit range that is not in the store both raise the
    HTTPException with status 404, commit nothing and leave the store as it
    was. *)
Theorem read_and_delete_of_absent_conversation (db : Database) (conversation_id : Z) :
  sqlite_integer conversation_id →
  conversation_table db !! conversation_id = None →
  serve (with_bound_id conversation_id read_conversation) db = refused db
  ∧ serve (with_bound_id conversation_id delete_conversation) db = refused db
  ∧ status (outcome (refused db : Served (gmap string bool))) = 404.
Proof.
  intros Hid Habsent. rewrite !with_bound_id_in_range by done.
  split; [by apply read_absent|].
  split; [by apply delete_conversation_absent|done].
Qed.

Lemma read_and_delete_of_absent_conversation_witness :
  serve (with_bound_id 9 delete_conversation) sample_db = refused sample_db.
Proof.
  apply (read_and_delete_of_absent_conversation sample_db 9); [by vm_compute|reflexivity].
Defined.

(** X4: deleting the same conversation a second time raises the
    HTTPException with status 404 and leaves the store the first delete
    produced. *)
Theorem second_delete_is_not_found (db : Database) (conversation_id : Z) (t : option string) :
  conversation_table db !! conversation_id = Some t →
  let after := database (serve (delete_conversation conversation_id) db) in
  serve (delete_conversation conversation_id) after = refused after.
Proof.
  intros Hconv after. subst after.
  rewrite (delete_conversation_present db conversation_id t Hconv). simpl.
  apply delete_conversation_absent. simpl. apply lookup_delete_eq.
Qed.

Lemma second_delete_is_not_found_witness :
  outcome (serve (delete_conversation 1) (database (serve (delete_conversation 1) sample_db)))
  = Raise conversation_not_found.
Proof.
  pose proof (second_delete_is_not_found sample_db 1 (Some "first") eq_refl) as H.
  simpl in H. rewrite H. reflexivity.
Defined.

(** X5: only the LLM-reply handler calls the LLM client, and it calls it at
    most once per request: no retry on failure, no call when the request is
    refused. *)
Theorem llm_called_at_most_once
    (db : Database) (now conversation_id : Z)
    (conversation : ConversationCreate) (message_in : MessageCreate)
    (client : list (gmap string string) → PyException + string) :
  (length (llm_calls (serve (generate_llm_reply client now conversation_id) db)) ≤ 1)%nat
  ∧ llm_calls (serve (create_conversation conversation) db) = []
  ∧ llm_calls (serve (create_message_for_conversation now conversation_id message_in) db) = []
  ∧ llm_calls (serve (delete_conversation conversation_id) db) = []
  ∧ llm_calls (serve (read_conversation conversation_id) db) = []
  ∧ llm_calls (serve (read_messages_for_conversation conversation_id) db) = [].
Proof.
  split; [|split; [|split; [|split; [|split]]]].
  - rewrite generate_llm_reply_served.
    destruct (conversation_table db !! conversation_id); [|simpl; lia].
    destruct (get_conversation_messages _ _); [simpl; lia|].
    destruct (client _); simpl; lia.
  - by rewrite create_conversation_served.
  - destruct (conversation_table db !! conversation_id) as [t|] eqn:Hconv.
    + by rewrite (create_message_served db now conversation_id message_in t Hconv).
    + by rewrite create_message_absent.
  - destruct (conversation_table db !! conversation_id) as [t|] eqn:Hconv.
    + by rewrite (delete_conversation_present db conversation_id t Hconv).
    + by rewrite delete_conversation_absent.
  - run. by destruct (conversation_table db !! conversation_id).
  - run. by destruct (conversation_table db !! conversation_id).
Qed.

(** *** Referential integrity *)

Lemma integrity_insert_conversation (db : Database) (k : Z) (t : option string) :
  referential_integrity db →
  referential_integrity {| conversation_table := <[k := t]> (conversation_table db);
                           message_table := message_table db |}.
Proof.
  intros Hdb j row Hrow. simpl in *. specialize (Hdb j row Hrow). simpl in Hdb.
  rewrite lookup_insert. by case_decide.
Qed.

Lemma integrity_insert_message (db : Database) (k : Z) (row : MessageColumns) :
  referential_integrity db →
  is_Some (conversation_table db !! message_conversation_id row) →
  referential_integrity {| conversation_table := conversation_table db;
                           message_table := <[k := row]> (message_table db) |}.
Proof.
  intros Hdb Hrow. unfold referential_integrity. simpl.
  by apply map_Forall_insert_2.
Qed.

Lemma integrity_delete_conversation (db : Database) (conversation_id : Z) :
  referential_integrity db →
  referential_integrity
    {| conversation_table := delete conversation_id (conversation_table db);
       message_table :=
         filter (λ kc, message_conversation_id kc.2 ≠ conversation_id) (message_table db) |}.
Proof.
  intros Hdb j row Hrow. simpl in *.
  apply map_lookup_filter_Some in Hrow as [Hrow Hother]. simpl in Hother.
  rewrite lookup_delete_ne by done. exact (Hdb j row Hrow).
Qed.

Lemma fresh_key_owns_nothing (db : Database) (k : Z) :
  referential_integrity db →
  conversation_table db !! k = None →
  filter (λ kc, message_conversation_id kc.2 ≠ k) (message_table db) = message_table db
  ∧ owned_messages db k = ∅.
Proof.
  intros Hdb Hfresh.
  assert (Hother : ∀ j row, message_table db !! j = Some row →
                            message_conversation_id row ≠ k).
  { intros j row Hrow Heq. specialize (Hdb j row Hrow). simpl in Hdb.
    rewrite Heq, Hfresh in Hdb. by destruct Hdb. }
  split.
  - apply map_filter_id. intros j row Hrow. simpl. by apply (Hother j).
  - apply map_empty. intros j. apply map_lookup_filter_None. right.
    intros row Hrow Hown. simpl in Hown. by apply (Hother j row).
Qed.

(** X6: every handler that writes keeps referential integrity: if each
    message row names a conversation of the store before the request, it
    does so after creating a conversation, posting a message, deleting a
    conversation or asking for an LLM reply, whatever the outcome. *)
Theorem handlers_keep_referential_integrity
    (db : Database) (now conversation_id : Z)
    (conversation : ConversationCreate) (message_in : MessageCreate)
    (client : list (gmap string string) → PyException + string) :
  referential_integrity db →
  referential_integrity (database (serve (create_conversation conversation) db))
  ∧ referential_integrity
      (database (serve (create_message_for_conversation now conversation_id message_in) db))
  ∧ referential_integrity (database (serve (delete_conversation conversation_id) db))
  ∧ referential_integrity
      (database (serve (generate_llm_reply client now conversation_id) db)).
Proof.
  intros Hdb. split; [|split; [|split]].
  - rewrite create_conversation_served. simpl. by apply integrity_insert_conversation.
  - destruct (conversation_table db !! conversation_id) as [t|] eqn:Hconv.
    + rewrite (create_message_served db now conversation_id message_in t Hconv). simpl.
      apply integrity_insert_message; [done|]. simpl. by rewrite Hconv.
    + by rewrite create_message_absent.
  - destruct (conversation_table db !! conversation_id) as [t|] eqn:Hconv.
    + rewrite (delete_conversation_present db conversation_id t Hconv). simpl.
      by apply integrity_delete_conversation.
    + by rewrite delete_conversation_absent.
  - rewrite generate_llm_reply_served.
    destruct (conversation_table db !! conversation_id) as [t|] eqn:Hconv; [|done].
    destruct (get_conversation_messages _ _); [done|].
    destruct (client _); simpl; [done|].
    apply integrity_insert_message; [done|]. simpl. by rewrite Hconv.
Qed.

Lemma sample_db_integrity : referential_integrity sample_db.
Proof. apply (bool_decide_unpack (referential_integrity sample_db)). vm_compute. reflexivity. Defined.

Lemma handlers_keep_referential_integrity_witness :
  referential_integrity sample_db
  ∧ referential_integrity (database (serve (delete_conversation 1) sample_db)).
Proof.
  split; [exact sample_db_integrity|].
  apply (handlers_keep_referential_integrity sample_db 50 1 {| create_title := None |}
           {| create_role := "user"; create_content := "x" |} echo_client
           sample_db_integrity).
Defined.

(** X7: in a store with referential integrity, a conversation that was just
    created owns no message: reading it returns its id, its stored title
    and an empty message list, and asking for an LLM reply on it raises the
    HTTPException with status 400. *)
Theorem new_conversation_has_no_messages
    (db : Database) (now : Z) (conversation : ConversationCreate)
    (client : list (gmap string string) → PyException + string) :
  referential_integrity db →
  let created := serve (create_conversation conversation) db in
  ∃ created_read,
    outcome created = Return created_read
    ∧ outcome (serve (read_conversation (conversation_read_id created_read)) (database created))
      = Return {| with_messages_id := conversation_read_id created_read;
                  with_messages_title := conversation_read_title created_read;
                  messages := [] |}
    ∧ status (outcome (serve (generate_llm_reply client now
                                (conversation_read_id created_read)) (database created)))
      = 400.
Proof.
  intros Hdb created. subst created. rewrite create_conversation_served. simpl.
  eexists. split; [reflexivity|]. simpl.
  set (k := next_id (conversation_table db)).
  set (stored := match create_title conversation with
                 | None => Some ("Conversation " +:+ pretty k) | Some given => Some given end).
  set (after := {| conversation_table := <[k := stored]> (conversation_table db);
                   message_table := message_table db |}).
  assert (Hnone : get_conversation_messages (begin after) k = []).
  { apply history_empty.
    by destruct (fresh_key_owns_nothing db k Hdb (next_id_fresh _)) as [_ Hown]. }
  split.
  - unfold begin in Hnone. run. rewrite lookup_insert_eq. simpl. by rewrite Hnone.
  - rewrite generate_llm_reply_served. simpl. rewrite lookup_insert_eq.
    by rewrite Hnone.
Qed.

Lemma new_conversation_has_no_messages_witness :
  ∃ created_read,
    outcome (serve (create_conversation {| create_title := None |}) sample_db)
    = Return created_read
    ∧ outcome (serve (read_conversation (conversation_read_id created_read))
                 (database (serve (create_conversation {| create_title := None |}) sample_db)))
      = Return {| with_messages_id := conversation_read_id created_read;
                  with_messages_title := conversation_read_title created_read;
                  messages := [] |}
    ∧ status (outcome (serve (generate_llm_reply echo_client 50
                                (conversation_read_id created_read))
                 (database (serve (create_conversation {| create_title := None |}) sample_db))))
      = 400.
Proof.
  apply (new_conversation_has_no_messages sample_db 50 {| create_title := None |} echo_client).
  exact sample_db_integrity.
Defined.

(** X8: in a store with referential integrity, creating a conversation and
    then deleting it gives back the store as it was before the two
    requests. *)
Theorem create_then_delete_restores_store (db : Database) (conversation : ConversationCreate) :
  referential_integrity db →
  let created := serve (create_conversation conversation) db in
  let k := next_id (conversation_table db) in
  outcome created = Return {| conversation_read_id := k;
                              conversation_read_title :=
                                match create_title conversation with
                                | None => Some ("Conversation " +:+ pretty k)
                                | Some given => Some given
                                end |}
  ∧ outcome (serve (delete_conversation k) (database created)) = Return {[ "ok" := true ]}
  ∧ database (serve (delete_conversation k) (database created)) = db.
Proof.
  intros Hdb created k. subst created. rewrite create_conversation_served. simpl.
  split; [done|]. fold k.
  set (stored := match create_title conversation with
                 | None => Some ("Conversation " +:+ pretty k) | Some given => Some given end).
  rewrite (delete_conversation_present _ k stored) by (simpl; apply lookup_insert_eq).
  simpl. split; [done|].
  destruct (fresh_key_owns_nothing db k Hdb (next_id_fresh _)) as [Hkeep _].
  rewrite Hkeep, delete_insert_id by apply next_id_fresh. by destruct db.
Qed.

Lemma create_then_delete_restores_store_witness :
  database (serve (delete_conversation 3)
              (database (serve (create_conversation {| create_title := None |}) sample_db)))
  = sample_db.
Proof.
  apply (create_then_delete_restores_store sample_db {| create_title := None |}).
  exact sample_db_integrity.
Defined.

(** *** What the readers see after a write *)

Lemma history_after_insert (db : Database) (k : Z) (row : MessageColumns) :
  message_table db !! k = None →
  get_conversation_messages
    (begin {| conversation_table := conversation_table db;
              message_table := <[k := row]> (message_table db) |})
    (message_conversation_id row)
  ≡ₚ {| message_id := k; message_columns := row |}
     :: get_conversation_messages (begin db) (message_conversation_id row).
Proof.
  intros Hfresh. unfold get_conversation_messages, message_rows. simpl.
  rewrite !merge_sort_Permutation, (map_to_list_insert _ _ _ Hfresh).
  rewrite fmap_cons. simpl. by rewrite filter_cons_True by done.
Qed.

Lemma owned_after_insert_elsewhere (db : Database) (k other : Z) (row : MessageColumns) :
  message_table db !! k = None →
  message_conversation_id row ≠ other →
  owned_messages {| conversation_table := conversation_table db;
                    message_table := <[k := row]> (message_table db) |} other
  = owned_messages db other.
Proof.
  intros Hfresh Hother. unfold owned_messages. simpl.
  rewrite map_filter_insert_False by done. by rewrite delete_id.
Qed.

(** X9: after a message is posted to an existing conversation, the list
    returned by list-messages for that conversation is the list returned
    before plus the posted message, up to order; it is one entry longer. *)
Theorem posted_message_is_listed
    (db : Database) (now conversation_id : Z) (message_in : MessageCreate) (t : option string) :
  conversation_table db !! conversation_id = Some t →
  let posted := serve (create_message_for_conversation now conversation_id message_in) db in
  ∃ new before after,
    outcome posted = Return new
    ∧ outcome (serve (read_messages_for_conversation conversation_id) db) = Return before
    ∧ outcome (serve (read_messages_for_conversation conversation_id) (database posted))
      = Return after
    ∧ after ≡ₚ new :: before
    ∧ length after = S (length before).
Proof.
  intros Hconv posted. subst posted.
  rewrite (create_message_served db now conversation_id message_in t Hconv). simpl.
  set (k := next_id (message_table db)).
  set (row := {| message_conversation_id := conversation_id;
                 message_role := create_role message_in;
                 message_content := create_content message_in;
                 message_created_at := now |}).
  pose proof (history_after_insert db k row (next_id_fresh _)) as Hperm. simpl in Hperm.
  unfold begin in Hperm.
  eexists _, _, _. split; [reflexivity|].
  split; [run; rewrite Hconv; reflexivity|].
  split; [run; rewrite Hconv; reflexivity|].
  assert (Hfmap : MessageRead_from_orm <$> get_conversation_messages
                    {| committed := {| conversation_table := conversation_table db;
                                       message_table := <[k := row]> (message_table db) |};
                       pending := {| conversation_table := conversation_table db;
                                     message_table := <[k := row]> (message_table db) |};
                       journal := []; prompts := [] |} conversation_id
                  ≡ₚ MessageRead_from_orm {| message_id := k; message_columns := row |}
                     :: (MessageRead_from_orm <$> get_conversation_messages
                           {| committed := db; pending := db; journal := []; prompts := [] |}
                           conversation_id))
    by (by rewrite Hperm).
  split; [exact Hfmap|]. by rewrite Hfmap.
Qed.

Lemma posted_message_is_listed_witness :
  ∃ new before after,
    outcome (serve (create_message_for_conversation 60 2
                      {| create_role := "user"; create_content := "more" |}) sample_db)
    = Return new
    ∧ outcome (serve (read_messages_for_conversation 2) sample_db) = Return before
    ∧ outcome (serve (read_messages_for_conversation 2)
                 (database (serve (create_message_for_conversation 60 2
                             {| create_role := "user"; create_content := "more" |}) sample_db)))
      = Return after
    ∧ after ≡ₚ new :: before
    ∧ length after = S (length before).
Proof.
  apply (posted_message_is_listed sample_db 60 2
           {| create_role := "user"; create_content := "more" |} None).
  reflexivity.
Defined.

(** X10: posting a message to a conversation, or storing an LLM reply for
    it, leaves the conversation table and the messages owned by every other
    conversation as they were. *)
Theorem writes_to_one_conversation_leave_the_others
    (db : Database) (now conversation_id other : Z) (message_in : MessageCreate)
    (client : list (gmap string string) → PyException + string) :
  conversation_id ≠ other →
  let posted := serve (create_message_for_conversation now conversation_id message_in) db in
  let replied := serve (generate_llm_reply client now conversation_id) db in
  owned_messages (database posted) other = owned_messages db other
  ∧ conversation_table (database posted) = conversation_table db
  ∧ owned_messages (database replied) other = owned_messages db other
  ∧ conversation_table (database replied) = conversation_table db.
Proof.
  intros Hother posted replied. subst posted replied.
  rewrite generate_llm_reply_served.
  destruct (conversation_table db !! conversation_id) as [t|] eqn:Hconv.
  - rewrite (create_message_served db now conversation_id message_in t Hconv). simpl.
    split; [by apply owned_after_insert_elsewhere, Hother; apply next_id_fresh|].
    split; [done|].
    destruct (get_conversation_messages _ _); [done|].
    destruct (client _); simpl; [done|].
    split; [|done]. apply owned_after_insert_elsewhere; [apply next_id_fresh|done].
  - by rewrite create_message_absent.
Qed.

Lemma writes_to_one_conversation_leave_the_others_witness :
  owned_messages (database (serve (generate_llm_reply echo_client 50 1) sample_db)) 2
  = owned_messages sample_db 2.
Proof.
  pose proof (writes_to_one_conversation_leave_the_others sample_db 50 1 2
                {| create_role := "user"; create_content := "x" |} echo_client
                ltac:(lia)) as (_ & _ & H & _).
  exact H.
Defined.

Lemma latest_is_last (l before : list Message) (x : Message) :
  StronglySorted created_le l →
  l ≡ₚ x :: before →
  Forall (λ y, message_created_at (message_columns y)
               < message_created_at (message_columns x)) before →
  last l = Some x.
Proof.
  intros Hsorted Hperm Hbefore.
  destruct l as [|y l'] using rev_ind.
  { by apply Permutation_nil_cons in Hperm. }
  clear IHl'. rewrite last_snoc. f_equal.
  assert (Hy : y ∈ x :: before) by (rewrite <- Hperm; set_solver).
  apply elem_of_cons in Hy as [Hy|Hy]; [done|].
  assert (Hx : x ∈ (l' ++ [y])%list) by (rewrite Hperm; left).
  apply elem_of_app in Hx as [Hx|Hx]; [|by apply list_elem_of_singleton in Hx].
  pose proof (StronglySorted_app_1_elem_of _ _ _ _ _ Hsorted Hx
                ltac:(by apply list_elem_of_singleton)) as Hle.
  rewrite Forall_forall in Hbefore. specialize (Hbefore y Hy).
  unfold created_le in Hle. lia.
Qed.

(** X11: when a message is posted to an existing conversation with a clock
    reading later than the creation time of every message the conversation
    owns, list-messages afterwards returns the posted message as its last
    entry. *)
Theorem later_message_is_listed_last
    (db : Database) (now conversation_id : Z) (message_in : MessageCreate) (t : option string) :
  conversation_table db !! conversation_id = Some t →
  map_Forall (λ _ row, message_created_at row < now) (owned_messages db conversation_id) →
  let posted := serve (create_message_for_conversation now conversation_id message_in) db in
  ∃ new after,
    outcome posted = Return new
    ∧ outcome (serve (read_messages_for_conversation conversation_id) (database posted))
      = Return after
    ∧ last after = Some new.
Proof.
  intros Hconv Hearlier posted. subst posted.
  rewrite (create_message_served db now conversation_id message_in t Hconv). simpl.
  set (k := next_id (message_table db)).
  set (row := {| message_conversation_id := conversation_id;
                 message_role := create_role message_in;
                 message_content := create_content message_in;
                 message_created_at := now |}).
  pose proof (history_after_insert db k row (next_id_fresh _)) as Hperm. simpl in Hperm.
  eexists _, _. split; [reflexivity|].
  split; [run; rewrite Hconv; reflexivity|].
  assert (Hlast :
    last (get_conversation_messages
            (begin {| conversation_table := conversation_table db;
                      message_table := <[k := row]> (message_table db) |}) conversation_id)
    = Some {| message_id := k; message_columns := row |}).
  { apply (latest_is_last _ (get_conversation_messages (begin db) conversation_id)).
    - unfold get_conversation_messages. apply StronglySorted_merge_sort; apply _.
    - exact Hperm.
    - apply Forall_forall. intros m Hm.
      apply elem_of_get_conversation_messages in Hm as [Hrow Hown]. simpl in *.
      apply (Hearlier (message_id m)). by apply map_lookup_filter_Some. }
  unfold begin in Hlast. by rewrite fmap_last, Hlast.
Qed.

Lemma later_message_is_listed_last_witness :
  ∃ new after,
    outcome (serve (create_message_for_conversation 60 1
                      {| create_role := "user"; create_content := "more" |}) sample_db)
    = Return new
    ∧ outcome (serve (read_messages_for_conversation 1)
                 (database (serve (create_message_for_conversation 60 1
                             {| create_role := "user"; create_content := "more" |}) sample_db)))
      = Return after
    ∧ last after = Some new.
Proof.
  apply (later_message_is_listed_last sample_db 60 1
           {| create_role := "user"; create_content := "more" |} (Some "first")).
  - reflexivity.
  - apply (bool_decide_unpack
             (map_Forall (λ _ row, message_created_at row < 60) (owned_messages sample_db 1))).
    vm_compute. reflexivity.
Defined.

Lemma history_is_owned_rows (db : Database) (conversation_id : Z) :
  get_conversation_messages (begin db) conversation_id
  ≡ₚ (λ kc, {| message_id := kc.1; message_columns := kc.2 |})
       <$> map_to_list (owned_messages db conversation_id).
Proof.
  apply NoDup_Permutation.
  - apply NoDup_get_conversation_messages.
  - apply (NoDup_message_rows {| conversation_table := conversation_table db;
                                 message_table := owned_messages db conversation_id |}).
  - intros m. rewrite elem_of_get_conversation_messages.
    rewrite (elem_of_message_rows
               {| conversation_table := conversation_table db;
                  message_table := owned_messages db conversation_id |}).
    simpl. unfold owned_messages. by rewrite map_lookup_filter_Some.
Qed.

(** X12: for an existing conversation, list-messages returns one entry per
    message row the conversation owns: as many entries as owned rows, with
    distinct ids, each carrying the requested conversation id and the role
    and content of the stored row with that id. *)
Theorem listed_messages_are_the_owned_rows
    (db : Database) (conversation_id : Z) (t : option string) :
  conversation_table db !! conversation_id = Some t →
  ∃ listed,
    outcome (serve (read_messages_for_conversation conversation_id) db) = Return listed
    ∧ length listed = size (owned_messages db conversation_id)
    ∧ NoDup (read_id <$> listed)
    ∧ Forall (λ entry,
                read_conversation_id entry = conversation_id
                ∧ ∃ row, message_table db !! read_id entry = Some row
                         ∧ message_conversation_id row = conversation_id
                         ∧ message_role row = read_role entry
                         ∧ message_content row = read_content entry) listed.
Proof.
  intros Hconv. eexists. split; [run; rewrite Hconv; reflexivity|].
  fold (begin db). pose proof (history_is_owned_rows db conversation_id) as Hperm.
  split; [|split].
  - by rewrite length_fmap, Hperm, length_fmap, length_map_to_list.
  - rewrite <- list_fmap_compose.
    assert (Hids : (read_id ∘ MessageRead_from_orm)
                     <$> get_conversation_messages (begin db) conversation_id
                   ≡ₚ (map_to_list (owned_messages db conversation_id)).*1)
      by (by rewrite Hperm, <- list_fmap_compose).
    rewrite Hids. apply NoDup_fst_map_to_list.
  - apply Forall_forall. intros entry Hentry.
    apply list_elem_of_fmap in Hentry as (m & -> & Hm).
    apply elem_of_get_conversation_messages in Hm as [Hrow Hown]. simpl in *.
    split; [done|]. by exists (message_columns m).
Qed.

Lemma listed_messages_are_the_owned_rows_witness :
  ∃ listed,
    outcome (serve (read_messages_for_conversation 1) sample_db) = Return listed
    ∧ length listed = size (owned_messages sample_db 1)
    ∧ NoDup (read_id <$> listed)
    ∧ Forall (λ entry,
                read_conversation_id entry = 1
                ∧ ∃ row, message_table sample_db !! read_id entry = Some row
                         ∧ message_conversation_id row = 1
                         ∧ message_role row = read_role entry
                         ∧ message_content row = read_content entry) listed.
Proof.
  apply (listed_messages_are_the_owned_rows sample_db 1 (Some "first")). reflexivity.
Defined.

(** *** Listing conversations *)










(** *** Posting, then asking for a reply *)

(** X16: after a message is posted to an existing conversation, a request
    for an LLM reply on that conversation calls the client once, with the
    system message followed by one entry per message of the conversation:
    the entries sent before the post would have been sent, plus an entry
    with the role and the content of the posted message, up to order. *)
Theorem posted_message_reaches_the_prompt
    (db : Database) (now later conversation_id : Z) (message_in : MessageCreate)
    (t : option string) (client : list (gmap string string) → PyException + string) :
  conversation_table db !! conversation_id = Some t →
  let posted := serve (create_message_for_conversation now conversation_id message_in) db in
  let entry (m : Message) := chat_message (message_role (message_columns m))
                                          (message_content (message_columns m)) in
  ∃ entries,
    llm_calls (serve (generate_llm_reply client later conversation_id) (database posted))
    = [system_message :: entries]
    ∧ entries ≡ₚ chat_message (create_role message_in) (create_content message_in)
                 :: (entry <$> get_conversation_messages (begin db) conversation_id).
Proof.
  intros Hconv posted entry. subst posted.
  rewrite (create_message_served db now conversation_id message_in t Hconv). simpl.
  set (k := next_id (message_table db)).
  set (row := {| message_conversation_id := conversation_id;
                 message_role := create_role message_in;
                 message_content := create_content message_in;
                 message_created_at := now |}).
  pose proof (history_after_insert db k row (next_id_fresh _)) as Hperm. simpl in Hperm.
  rewrite generate_llm_reply_served. simpl. rewrite Hconv.
  destruct (get_conversation_messages (begin _) conversation_id) as [|m l] eqn:E.
  { by apply Permutation_nil_cons in Hperm. }
  exists (entry <$> m :: l). split.
  - rewrite build_llm_messages_cons. by destruct (client _).
  - by rewrite Hperm.
Qed.

Lemma posted_message_reaches_the_prompt_witness :
  ∃ entries,
    llm_calls (serve (generate_llm_reply echo_client 70 2)
                 (database (serve (create_message_for_conversation 60 2
                             {| create_role := "user"; create_content := "more" |}) sample_db)))
    = [system_message :: entries]
    ∧ entries ≡ₚ chat_message "user" "more"
                 :: ((λ m, chat_message (message_role (message_columns m))
                                        (message_content (message_columns m)))
                       <$> get_conversation_messages (begin sample_db) 2).
Proof.
  apply (posted_message_reaches_the_prompt sample_db 60 70 2
           {| create_role := "user"; create_content := "more" |} None echo_client).
  reflexivity.
Defined.
